(** * Speech_check: the recognition dispatcher of [SpeechRecognitionApp]

    A shallow embedding of [src/Speech_check.py].  The class
    [SpeechRecognitionApp] keeps two dictionaries and one string field; its
    methods talk to three outside parties: the [speech_recognition] library
    (microphone, recognizer), Streamlit (messages on the page) and the file
    system (the temporary file of [create_download_file]).

    The outside parties are not part of the repository.  Their behaviour is a
    parameter of the development ([Env]): every library call is a function of
    an abstract world that returns either a value or a raised exception,
    together with the next world.  The methods of the class are written in a
    state-and-exception monad over the fields of the object, the world, the
    messages shown on the page and the files written. *)

From stdpp Require Import base option gmap strings.

Set Default Proof Using "Type".

(** ** Exceptions and results *)

(** The exceptions the code distinguishes.  [speech_recognition] declares
    [UnknownValueError], [RequestError] and [WaitTimeoutError] as three
    unrelated subclasses of [Exception]; [OtherException] stands for an
    instance of any other subclass of [Exception] (its class name and its
    message).  Each carries the text that [str(e)] yields.  What derives
    from [BaseException] only ([KeyboardInterrupt], [SystemExit]) is not a
    failure of a library call and is left out. *)
Inductive exn : Type :=
| UnknownValueError (msg : string)
| RequestError (msg : string)
| WaitTimeoutError (msg : string)
| OtherException (cls msg : string).

(** [str(e)], as used by the f-strings of the source. *)
Definition str (e : exn) : string :=
  match e with
  | UnknownValueError msg => msg
  | RequestError msg => msg
  | WaitTimeoutError msg => msg
  | OtherException _ msg => msg
  end.

(** The outcome of a call: a returned value or a raised exception. *)
Inductive Result (A : Type) : Type :=
| Return (a : A)
| Raise (e : exn).
Arguments Return {A} a.
Arguments Raise {A} e.

(** A message put on the page by [st.info] or [st.warning]. *)
Inductive st_message : Type :=
| info (body : string)
| warning (body : string).

(** The values of the dictionary [recognition_apis]: the two bound methods. *)
Inductive Method : Type :=
| RecognizeWithGoogle
| RecognizeWithSphinx.

(** The fields of a [SpeechRecognitionApp] object ([self.recognizer] is an
    object of the library; its state is part of the world). *)
Record SpeechRecognitionApp : Type := {
  recognition_apis : gmap string Method;
  languages : gmap string string;
  last_transcription : string
}.

(** [SpeechRecognitionApp.__init__]. *)
Definition init : SpeechRecognitionApp := {|
  recognition_apis :=
    <["Google Speech Recognition" := RecognizeWithGoogle]>
    (<["Sphinx (Offline)" := RecognizeWithSphinx]> ∅);
  languages :=
    <["English (US)" := "en-US"]>
    (<["Spanish" := "es-ES"]>
    (<["French" := "fr-FR"]>
    (<["German" := "de-DE"]>
    (<["Chinese (Mandarin)" := "zh-CN"]> ∅))));
  last_transcription := ""
|}.

(** The text returned when listening times out, which
    [create_download_file] compares against. *)
Definition no_speech_text : string := "No speech detected. Time limit exceeded.".

Section Program.

(** The world outside the program, a captured audio sample
    ([sr.AudioData]) and an opened audio source ([sr.Microphone]). *)
Context {World Audio Source : Type}.

(** The library calls the program makes. *)
Record Env : Type := {
  (** [sr.Microphone()] followed by [__enter__]: opens the input stream. *)
  Microphone_enter : World → Result Source * World;
  (** [Microphone.__exit__]: closes the stream; it returns [None], so a
      raised exception is not swallowed. *)
  Microphone_exit : Source → World → World;
  (** [Recognizer.adjust_for_ambient_noise(source, duration)]. *)
  adjust_for_ambient_noise : Source → Z → World → Result unit * World;
  (** [Recognizer.listen(source, timeout, phrase_time_limit)]. *)
  listen : Source → Z → Z → World → Result Audio * World;
  (** [Recognizer.recognize_google(audio, language)]. *)
  recognize_google : Audio → string → World → Result string * World;
  (** [Recognizer.recognize_sphinx(audio)]. *)
  recognize_sphinx : Audio → World → Result string * World;
  (** [tempfile.NamedTemporaryFile(mode, delete, suffix, prefix)]: creates
      the file and returns its name. *)
  NamedTemporaryFile : string → string → World → Result string * World
}.

(** What a method can read and change. *)
Record State : Type := {
  self : SpeechRecognitionApp;
  world : World;
  page : list st_message;
  files : gmap string string
}.

Definition set_self (s : State) (a : SpeechRecognitionApp) : State :=
  {| self := a; world := world s; page := page s; files := files s |}.
Definition set_world (s : State) (w : World) : State :=
  {| self := self s; world := w; page := page s; files := files s |}.
Definition set_page (s : State) (p : list st_message) : State :=
  {| self := self s; world := world s; page := p; files := files s |}.
Definition set_files (s : State) (f : gmap string string) : State :=
  {| self := self s; world := world s; page := page s; files := f |}.

(** ** The monad of methods *)

Definition M (A : Type) : Type := State → Result A * State.

Definition ret {A} (a : A) : M A := fun s => (Return a, s).

Definition bind {A B} (m : M A) (k : A → M B) : M B :=
  fun s =>
    match m s with
    | (Return a, s') => k a s'
    | (Raise e, s') => (Raise e, s')
    end.

(** [try: body except ... as e: handler e]; the handler sees the state the
    body left behind. *)
Definition try_except {A} (body : M A) (handler : exn → M A) : M A :=
  fun s =>
    match body s with
    | (Return a, s') => (Return a, s')
    | (Raise e, s') => handler e s'
    end.

(** A library call: runs on the world, leaves the rest alone. *)
Definition call {A} (f : World → Result A * World) : M A :=
  fun s => let '(r, w) := f (world s) in (r, set_world s w).

(** [st.info(body)] and [st.warning(body)] add a message to the page; they
    are taken not to raise. *)
Definition st_info (body : string) : M unit :=
  fun s => (Return tt, set_page s (page s ++ [info body])).

Definition st_warning (body : string) : M unit :=
  fun s => (Return tt, set_page s (page s ++ [warning body])).

Definition get_self : M SpeechRecognitionApp := fun s => (Return (self s), s).

(** [self.last_transcription = text]. *)
Definition store_last_transcription (text : string) : M unit :=
  fun s =>
    (Return tt,
     set_self s {| recognition_apis := recognition_apis (self s);
                   languages := languages (self s);
                   last_transcription := text |}).

(** [temp_file.write(text)] and the close at the end of the [with]. *)
Definition write_file (path text : string) : M unit :=
  fun s => (Return tt, set_files s (<[path := text]> (files s))).

Notation "x ← m ; k" := (bind m (fun x => k))
  (at level 20, m at level 100, k at level 200, only parsing).
Notation "m ;; k" := (bind m (fun _ => k))
  (at level 100, k at level 200, right associativity, only parsing).

Variable env : Env.

(** [with sr.Microphone() as source: body]. *)
Definition with_Microphone {A} (body : Source → M A) : M A :=
  fun s =>
    match Microphone_enter env (world s) with
    | (Raise e, w) => (Raise e, set_world s w)
    | (Return source, w) =>
        let '(r, s') := body source (set_world s w) in
        (r, set_world s' (Microphone_exit env source (world s')))
    end.

(** ** The methods *)

Definition recognize_with_google (audio : Audio) (language : string) : M string :=
  try_except
    (text ← call (recognize_google env audio language); ret text)
    (fun e =>
       match e with
       | UnknownValueError _ =>
           ret "Google Speech Recognition could not understand the audio"
       | RequestError _ =>
           ret ("Could not request results from Google Speech Recognition service; "
                  +:+ str e)
       | _ => fun s => (Raise e, s)
       end).

Definition recognize_with_sphinx (audio : Audio) (language : string) : M string :=
  try_except
    (text ← call (recognize_sphinx env audio); ret text)
    (fun e =>
       match e with
       | UnknownValueError _ => ret "Sphinx could not understand the audio"
       | RequestError _ => ret ("Sphinx error: " +:+ str e)
       | _ => fun s => (Raise e, s)
       end).

(** Calling a value of [recognition_apis]. *)
Definition invoke (m : Method) : Audio → string → M string :=
  match m with
  | RecognizeWithGoogle => recognize_with_google
  | RecognizeWithSphinx => recognize_with_sphinx
  end.

(** [self.recognition_apis.get(api_choice, self.recognize_with_google)]. *)
Definition recognition_method (app : SpeechRecognitionApp) (api_choice : string) : Method :=
  default RecognizeWithGoogle (recognition_apis app !! api_choice).

(** [self.languages.get(language_choice, "en-US")]. *)
Definition language_tag (app : SpeechRecognitionApp) (language_choice : string) : string :=
  default "en-US" (languages app !! language_choice).

(** Lines 59 to 65 of [transcribe_speech]: select the method, call it on
    the audio, store and return the text. *)
Definition dispatch (api_choice language_choice : string) (audio : Audio) : M string :=
  app ← get_self;
  text ← invoke (recognition_method app api_choice) audio
                (language_tag app language_choice);
  store_last_transcription text;;
  ret text.

(** The [except] clauses of [transcribe_speech]. *)
Definition transcribe_handler (e : exn) : M string :=
  match e with
  | WaitTimeoutError _ => ret no_speech_text
  | _ => ret ("An unexpected error occurred: " +:+ str e)
  end.

(** The [try] statement of [transcribe_speech], lines 52 to 70. *)
Definition listen_and_dispatch (source : Source) (api_choice language_choice : string)
    (timeout phrase_time_limit : Z) : M string :=
  try_except
    (audio ← call (listen env source timeout phrase_time_limit);
     st_info "Processing audio...";;
     dispatch api_choice language_choice audio)
    transcribe_handler.

Definition transcribe_speech (api_choice language_choice : string)
    (timeout phrase_time_limit : Z) : M string :=
  with_Microphone (fun source =>
    call (adjust_for_ambient_noise env source 1);;
    st_info ("Speak now in " +:+ language_choice +:+ "...");;
    listen_and_dispatch source api_choice language_choice timeout phrase_time_limit).

(** [create_download_file]: [None] when there is nothing to save, else the
    path of the temporary file that now holds the text. *)
Definition create_download_file (text : string) : M (option string) :=
  if bool_decide (text = "") || bool_decide (text = no_speech_text) then
    st_warning "No valid transcription to save.";;
    ret None
  else
    temp_file_path ← call (NamedTemporaryFile env ".txt" "transcription_");
    write_file temp_file_path text;;
    ret (Some temp_file_path).

End Program.

Arguments Env : clear implicits.
Arguments State : clear implicits.

(** ** Scripted environments

    Concrete instances of [Env] on which the methods can be run.  The world
    is the number of library calls made so far, an audio sample is its list
    of frames and a source is a device index.  A script fixes what each
    library call answers. *)

Record Script : Type := {
  opens : Result nat;
  calibrates : Result unit;
  hears : Result (list Z);
  google_answers : Result string;
  sphinx_answers : Result string
}.

Definition scripted (sc : Script) : Env nat (list Z) nat := {|
  Microphone_enter w := (opens sc, S w);
  Microphone_exit _ w := S w;
  adjust_for_ambient_noise _ _ w := (calibrates sc, S w);
  listen _ _ _ w := (hears sc, S w);
  recognize_google _ _ w := (google_answers sc, S w);
  recognize_sphinx _ w := (sphinx_answers sc, S w);
  NamedTemporaryFile suffix prefix w :=
    (Return ("/tmp/" +:+ prefix +:+ "k3x9" +:+ suffix), S w)
|}.

(** A session in which everything works and the user says "hello". *)
Definition all_well : Script := {|
  opens := Return 0%nat;
  calibrates := Return tt;
  hears := Return [12; -7; 3]%Z;
  google_answers := Return "hello";
  sphinx_answers := Return "hello"
|}.

Definition with_opens (r : Result nat) (sc : Script) : Script :=
  {| opens := r; calibrates := calibrates sc; hears := hears sc;
     google_answers := google_answers sc; sphinx_answers := sphinx_answers sc |}.
Definition with_hears (r : Result (list Z)) (sc : Script) : Script :=
  {| opens := opens sc; calibrates := calibrates sc; hears := r;
     google_answers := google_answers sc; sphinx_answers := sphinx_answers sc |}.
Definition with_google (r : Result string) (sc : Script) : Script :=
  {| opens := opens sc; calibrates := calibrates sc; hears := hears sc;
     google_answers := r; sphinx_answers := sphinx_answers sc |}.
Definition with_sphinx (r : Result string) (sc : Script) : Script :=
  {| opens := opens sc; calibrates := calibrates sc; hears := hears sc;
     google_answers := google_answers sc; sphinx_answers := r |}.

(** No microphone on the machine: [sr.Microphone()] raises the [OSError]
    that PyAudio reports. *)
Definition no_microphone : Script :=
  with_opens (Raise (OtherException "OSError" "No Default Input Device Available"))
    all_well.

(** Nobody speaks: [listen] times out. *)
Definition silence : Script :=
  with_hears
    (Raise (WaitTimeoutError "listening timed out while waiting for phrase to start"))
    all_well.

(** The recognizers do not make out the words. *)
Definition mumbling : Script :=
  with_google (Raise (UnknownValueError ""))
    (with_sphinx (Raise (UnknownValueError "")) all_well).

(** The recognizers cannot do their work; the diagnostic is "x". *)
Definition unreachable : Script :=
  with_google (Raise (RequestError "x"))
    (with_sphinx (Raise (RequestError "x")) all_well).

(** The state right after [app = SpeechRecognitionApp()]. *)
Definition fresh : State nat := {|
  self := init; world := 0%nat; page := []; files := ∅
|}.

(** ** Notions used by the statements *)

(** The templates of the specification, in its words. *)
Definition spec_unintelligible_text (backend_name : string) : string :=
  backend_name +:+ " could not understand the audio".
Definition spec_unavailable_text (backend_name diagnostic : string) : string :=
  "Could not request results from " +:+ backend_name +:+ ": " +:+ diagnostic.

(** A recognizer whose answer depends on the audio and the language only,
    not on the world it runs in: a stub. *)
Definition deterministic {World Audio Source} (env : Env World Audio Source) : Prop :=
  ∀ audio language w w',
    (recognize_google env audio language w).1 = (recognize_google env audio language w').1
    ∧ (recognize_sphinx env audio w).1 = (recognize_sphinx env audio w').1.

(** The text [transcribe_speech] returns for an exception caught by its
    [except] clauses. *)
Definition caught_text (e : exn) : string :=
  match e with
  | WaitTimeoutError _ => no_speech_text
  | _ => "An unexpected error occurred: " +:+ str e
  end.

(** * The script [main]

    Streamlit runs [main] from top to bottom on every interaction.  What the
    widgets return in one run (the options selected in the sidebar, the two
    numbers, whether the button was pressed) and the reading of the clock are
    the inputs of that run; what the run draws, besides the messages of the
    methods, is recorded in order. *)

(** The values the widgets and the clock return in one run. *)
Record Visit : Type := {
  chosen_api : string;
  chosen_language : string;
  chosen_timeout : Z;
  chosen_phrase_time_limit : Z;
  pressed : bool;
  (** [datetime.now().strftime('%Y%m%d_%H%M%S')]. *)
  stamp : string
}.

(** What [main] draws. *)
Inductive element : Type :=
| title (body : string)
| sidebar_header (body : string)
| sidebar_selectbox (label : string) (options : list string)
| sidebar_number_input (label : string) (min_value max_value value : Z) (help : string)
| write (body : string)
| button (label : string)
| download_button (label data file_name mime : string).

(** The keys of the two dictionaries in the order in which [__init__]
    inserts them, lines 12 to 22. *)
Definition recognition_api_names : list string :=
  ["Google Speech Recognition"; "Sphinx (Offline)"].
Definition language_names : list string :=
  ["English (US)"; "Spanish"; "French"; "German"; "Chinese (Mandarin)"].

(** [list(d.keys())] for a dictionary built by inserting the keys
    [inserted] in that order: Python lists the keys of a dictionary in
    insertion order.  The map says which keys are present, the list in which
    order they come. *)
Definition keys {V} (inserted : list string) (d : gmap string V) : list string :=
  filter (λ k, is_Some (d !! k)) inserted.

(** ** Text files

    [files] holds, for each path, the text written to it.  The temporary
    file is opened in text mode with the default [newline]: on writing, each
    LF of the text is replaced by [os.linesep]; on reading, CR LF and a lone
    CR both become LF. *)

Definition CR : Ascii.ascii := Ascii.ascii_of_nat 13.
Definition LF : Ascii.ascii := Ascii.ascii_of_nat 10.

(** The platform the script runs on, for [os.linesep]. *)
Inductive Platform : Type :=
| posix
| windows.

Definition os_linesep (platform : Platform) : string :=
  match platform with
  | posix => String LF EmptyString
  | windows => String CR (String LF EmptyString)
  end.

(** What a text-mode [write] puts on disk for a text. *)
Fixpoint on_disk (linesep : string) (text : string) : string :=
  match text with
  | EmptyString => EmptyString
  | String c rest =>
      if Ascii.eqb c LF then linesep +:+ on_disk linesep rest
      else String c (on_disk linesep rest)
  end.

(** What a text-mode [read] makes of what is on disk. *)
Fixpoint universal_newlines (data : string) : string :=
  match data with
  | EmptyString => EmptyString
  | String c rest =>
      if Ascii.eqb c CR then
        match rest with
        | String c' rest' =>
            if Ascii.eqb c' LF then String LF (universal_newlines rest')
            else String LF (universal_newlines rest)
        | EmptyString => String LF EmptyString
        end
      else String c (universal_newlines rest)
  end.

(** What reading gives back for a text that was written. *)
Definition read_back (platform : Platform) (text : string) : string :=
  universal_newlines (on_disk (os_linesep platform) text).


Section Main.

Context {World Audio Source : Type}.
Variable env : Env World Audio Source.

(** [sr.Recognizer()], called by [__init__] on line 10.  The constructor
    only sets the attributes of the new recognizer; it does not raise. *)
Variable Recognizer : World → World.

Variable platform : Platform.

(** [app = SpeechRecognitionApp()]: [__init__] makes a recognizer and
    fills the fields; the new object replaces the one of the previous
    run. *)
Definition construct : M (World := World) unit :=
  fun s => (Return tt, set_world (set_self s init) (Recognizer (world s))).

(** [with open(path, 'r') as file: file.read()]. *)
Definition read_file (path : string) : M (World := World) string :=
  fun s =>
    match files s !! path with
    | Some text => (Return (read_back platform text), s)
    | None =>
        (Raise (OtherException "FileNotFoundError"
                  ("[Errno 2] No such file or directory: '" +:+ path +:+ "'")), s)
    end.

(** [os.unlink(path)]. *)
Definition os_unlink (path : string) : M (World := World) unit :=
  fun s =>
    match files s !! path with
    | Some _ => (Return tt, set_files s (delete path (files s)))
    | None =>
        (Raise (OtherException "FileNotFoundError"
                  ("[Errno 2] No such file or directory: '" +:+ path +:+ "'")), s)
    end.

(** The monad of the script: the state of the methods and what was drawn. *)
Definition Run (A : Type) : Type :=
  State World * list element → Result A * (State World * list element).

Definition done_with {A} (a : A) : Run A := fun sd => (Return a, sd).

Definition and_then {A B} (m : Run A) (k : A → Run B) : Run B :=
  fun sd =>
    match m sd with
    | (Return a, sd') => k a sd'
    | (Raise e, sd') => (Raise e, sd')
    end.

(** A method call made by the script. *)
Definition method {A} (m : M (World := World) A) : Run A :=
  fun sd => let '(r, s') := m sd.1 in (r, (s', sd.2)).

(** The widgets and [st.write] add an element to the page; they are taken
    not to raise. *)
Definition draw (e : element) : Run unit :=
  fun sd => (Return tt, (sd.1, sd.2 ++ [e])).

Notation "x ← m ; k" := (and_then m (fun x => k))
  (at level 20, m at level 100, k at level 200, only parsing).
Notation "m ;; k" := (and_then m (fun _ => k))
  (at level 100, k at level 200, right associativity, only parsing).

(** The body of [if st.button("Start Recording")], lines 131 to 153. *)
Definition record_and_offer (v : Visit) : Run unit :=
  text ← method (transcribe_speech env (chosen_api v) (chosen_language v)
                   (chosen_timeout v) (chosen_phrase_time_limit v));
  draw (write "### Transcription:");;
  draw (write text);;
  temp_file_path ← method (create_download_file env text);
  match temp_file_path with
  | Some path =>
      if bool_decide (path = "") then done_with tt
      else
        file_contents ← method (read_file path);
        draw (download_button "Download Transcription" file_contents
                ("transcription_" +:+ stamp v +:+ ".txt") "text/plain");;
        method (os_unlink path)
  | None => done_with tt
  end.

Definition main (v : Visit) : Run unit :=
  draw (title "Advanced Speech Recognition App");;
  method construct;;
  draw (sidebar_header "Speech Recognition Settings");;
  app ← method get_self;
  draw (sidebar_selectbox "Choose Speech Recognition API"
          (keys recognition_api_names (recognition_apis app)));;
  draw (sidebar_selectbox "Choose Language"
          (keys language_names (languages app)));;
  draw (sidebar_number_input "Set Timeout (seconds)" 1 30 5
          "Maximum time to wait for speech to start.");;
  draw (sidebar_number_input "Set Phrase Time Limit (seconds)" 1 60 10
          "Maximum duration for each speech input.");;
  draw (write "Configure your settings in the sidebar and click 'Start Recording'");;
  draw (button "Start Recording");;
  if pressed v then record_and_offer v else done_with tt.

End Main.

(** What [main] has drawn when it looks at the button. *)
Definition front_page : list element := [
  title "Advanced Speech Recognition App";
  sidebar_header "Speech Recognition Settings";
  sidebar_selectbox "Choose Speech Recognition API"
    ["Google Speech Recognition"; "Sphinx (Offline)"];
  sidebar_selectbox "Choose Language"
    ["English (US)"; "Spanish"; "French"; "German"; "Chinese (Mandarin)"];
  sidebar_number_input "Set Timeout (seconds)" 1 30 5
    "Maximum time to wait for speech to start.";
  sidebar_number_input "Set Phrase Time Limit (seconds)" 1 60 10
    "Maximum duration for each speech input.";
  write "Configure your settings in the sidebar and click 'Start Recording'";
  button "Start Recording"
].

(** Making a recognizer, on the scripted worlds: one more library call. *)
Definition made : nat → nat := S.

(** The download button [main] draws for a text. *)
Definition offer (v : Visit) (data : string) : element :=
  download_button "Download Transcription" data
    ("transcription_" +:+ stamp v +:+ ".txt") "text/plain".

(** The library call behind a method of [recognition_apis]. *)
Definition recognizer {World Audio Source} (env : Env World Audio Source)
    (m : Method) (audio : Audio) (language : string) : World → Result string * World :=
  match m with
  | RecognizeWithGoogle => recognize_google env audio language
  | RecognizeWithSphinx => recognize_sphinx env audio
  end.

(** The stream of the microphone breaks during the calibration. *)
Definition stream_closed : Script := {|
  opens := Return 0%nat;
  calibrates := Raise (OtherException "OSError" "[Errno -9988] Stream closed");
  hears := Return [12; -7; 3]%Z;
  google_answers := Return "hello";
  sphinx_answers := Return "hello"
|}.

(** A session in which everything works except that no temporary file can
    be created. *)
Definition disk_full : Env nat (list Z) nat := {|
  Microphone_enter := Microphone_enter (scripted all_well);
  Microphone_exit := Microphone_exit (scripted all_well);
  adjust_for_ambient_noise := adjust_for_ambient_noise (scripted all_well);
  listen := listen (scripted all_well);
  recognize_google := recognize_google (scripted all_well);
  recognize_sphinx := recognize_sphinx (scripted all_well);
  NamedTemporaryFile _ _ w :=
    (Raise (OtherException "OSError" "[Errno 28] No space left on device"), S w)
|}.

(** A run with the defaults of the sidebar in which the button is pressed. *)
Definition press : Visit := {|
  chosen_api := "Google Speech Recognition";
  chosen_language := "English (US)";
  chosen_timeout := 5;
  chosen_phrase_time_limit := 10;
  pressed := true;
  stamp := "20240315_101500"
|}.

(** A run in which the page is only looked at. *)
Definition look : Visit := {|
  chosen_api := "Sphinx (Offline)";
  chosen_language := "German";
  chosen_timeout := 5;
  chosen_phrase_time_limit := 10;
  pressed := false;
  stamp := "20240315_101400"
|}.

(** ** Proof tools *)

(** Peels a literal off the front of an equation between strings of which one
    ends in an unknown name followed by a literal. *)
Ltac peel H name :=
  repeat (destruct name as [|? name];
          [discriminate H | simpl in H; injection H; clear H; intros H _]);
  destruct name; simpl in H; discriminate H.

(** * Properties *)

Section Properties.

Context {World Audio Source : Type}.
Variable env : Env World Audio Source.

Implicit Types (s : State World) (audio : Audio) (source : Source).
Implicit Types (api_choice language_choice language text : string).
Implicit Types (timeout phrase_time_limit : Z).

(** Unfolds the monad and splits on the answer of every library call. *)
Ltac run :=
  unfold recognize_with_google, recognize_with_sphinx, try_except, bind, call,
    ret, get_self, store_last_transcription, st_info, st_warning, write_file;
  simpl;
  repeat match goal with
    | |- context [match ?f (world ?s) with _ => _ end] =>
        destruct (f (world s)) as [[?|[]] ?]; simpl
    | |- context [let (_, _) := ?f (world ?s) in _] =>
        destruct (f (world s)) as [[?|[]] ?]; simpl
    end.

(** ** Frame of a backend call *)

(** A recognition method changes the world and nothing else. *)
Lemma invoke_frame m audio language s :
  (invoke env m audio language s).2
  = set_world s (world (invoke env m audio language s).2).
Proof. destruct m; simpl; run; reflexivity. Qed.

(** The two methods never let [UnknownValueError] or [RequestError]
    through. *)
Lemma invoke_absorbs m audio language s e :
  (invoke env m audio language s).1 = Raise e →
  (∀ msg, e ≠ UnknownValueError msg) ∧ (∀ msg, e ≠ RequestError msg).
Proof.
  destruct m; simpl; run; intros [= <-]; split; intros ?; discriminate.
Qed.

(** [dispatch], by cases on what the selected method does. *)
Lemma dispatch_cases api_choice language_choice audio s :
  dispatch env api_choice language_choice audio s
  = match invoke env (recognition_method (self s) api_choice) audio
            (language_tag (self s) language_choice) s with
    | (Return text, s') =>
        (Return text,
         set_self s' {| recognition_apis := recognition_apis (self s');
                        languages := languages (self s');
                        last_transcription := text |})
    | (Raise e, s') => (Raise e, s')
    end.
Proof.
  unfold dispatch, bind, get_self, store_last_transcription, ret.
  destruct (invoke _ _ _ _ _) as [[text|e] s']; reflexivity.
Qed.

(** The [try] statement of [transcribe_speech], by cases on what
    listening and the dispatch do. *)
Lemma listen_and_dispatch_cases source api_choice language_choice
    timeout phrase_time_limit s :
  listen_and_dispatch env source api_choice language_choice
    timeout phrase_time_limit s
  = match listen env source timeout phrase_time_limit (world s) with
    | (Return audio, w) =>
        match dispatch env api_choice language_choice audio
                (set_page (set_world s w)
                   (page s ++ [info "Processing audio..."])) with
        | (Return text, s') => (Return text, s')
        | (Raise e, s') => (Return (caught_text e), s')
        end
    | (Raise e, w) => (Return (caught_text e), set_world s w)
    end.
Proof.
  unfold listen_and_dispatch, try_except, bind at 1, call.
  destruct (listen _ _ _ _ _) as [[audio|e] w]; simpl.
  - unfold bind, st_info. simpl.
    destruct (dispatch _ _ _ _ _) as [[text|e] s']; [done|by destruct e].
  - by destruct e.
Qed.

(** [transcribe_speech], by cases on what opening the microphone and the
    calibration do. *)
Lemma transcribe_speech_cases api_choice language_choice
    timeout phrase_time_limit s :
  transcribe_speech env api_choice language_choice timeout phrase_time_limit s
  = match Microphone_enter env (world s) with
    | (Return source, w1) =>
        match adjust_for_ambient_noise env source 1 w1 with
        | (Return _, w2) =>
            let r := listen_and_dispatch env source api_choice language_choice
                       timeout phrase_time_limit
                       (set_page (set_world s w2)
                          (page s ++ [info ("Speak now in " +:+ language_choice
                                              +:+ "...")])) in
            (r.1, set_world r.2 (Microphone_exit env source (world r.2)))
        | (Raise e, w2) =>
            (Raise e, set_world s (Microphone_exit env source w2))
        end
    | (Raise e, w) => (Raise e, set_world s w)
    end.
Proof.
  unfold transcribe_speech, with_Microphone.
  destruct (Microphone_enter env (world s)) as [[source|e] w1]; [|done].
  unfold bind at 1, call at 1. simpl.
  destruct (adjust_for_ambient_noise env source 1 w1) as [[[]|e] w2]; [|done].
  unfold bind at 1, st_info at 1. simpl.
  by destruct (listen_and_dispatch _ _ _ _ _ _ _).
Qed.

(** The [try] statement of [transcribe_speech] always returns a text. *)
Lemma listen_and_dispatch_returns source api_choice language_choice
    timeout phrase_time_limit s :
  ∃ text,
    (listen_and_dispatch env source api_choice language_choice
       timeout phrase_time_limit s).1 = Return text.
Proof.
  rewrite listen_and_dispatch_cases.
  destruct (listen _ _ _ _ _) as [[audio|e] w]; [|by eexists].
  destruct (dispatch _ _ _ _ _) as [[text|e] s']; by eexists.
Qed.

(** The outcome of a call made with the microphone open and calibrated, by
    cases on what listening and the selected method do. *)
Lemma transcribe_speech_outcome api_choice language_choice
    timeout phrase_time_limit s source w1 w2 :
  Microphone_enter env (world s) = (Return source, w1) →
  adjust_for_ambient_noise env source 1 w1 = (Return tt, w2) →
  let r := transcribe_speech env api_choice language_choice
             timeout phrase_time_limit s in
  let speak := info ("Speak now in " +:+ language_choice +:+ "...") in
  match listen env source timeout phrase_time_limit w2 with
  | (Raise e, _) =>
      r.1 = Return (caught_text e)
      ∧ last_transcription (self r.2) = last_transcription (self s)
  | (Return audio, w3) =>
      match (invoke env (recognition_method (self s) api_choice) audio
               (language_tag (self s) language_choice)
               (set_page (set_world s w3)
                  ((page s ++ [speak]) ++ [info "Processing audio..."]))).1 with
      | Return text =>
          r.1 = Return text ∧ last_transcription (self r.2) = text
      | Raise e =>
          r.1 = Return (caught_text e)
          ∧ last_transcription (self r.2) = last_transcription (self s)
      end
  end.
Proof.
  intros Hopen Hnoise r speak. subst r speak.
  rewrite transcribe_speech_cases, Hopen, Hnoise. simpl.
  rewrite listen_and_dispatch_cases. simpl.
  destruct (listen env source timeout phrase_time_limit w2)
    as [[audio|e] w3]; simpl; [|done].
  rewrite dispatch_cases. unfold set_page, set_world. simpl.
  match goal with
  | |- context [invoke env ?m ?a ?l ?s0] =>
      pose proof (invoke_frame m a l s0) as Hframe;
      destruct (invoke env m a l s0) as [[text|e] s']
  end; simpl in Hframe; rewrite Hframe; simpl; done.
Qed.

(** ** The texts of backend failures *)

(** C2 (as amended).  When the recognizer raises [UnknownValueError] the
    method returns exactly "<BackendName> could not understand the audio",
    with the names "Google Speech Recognition" and "Sphinx".  When it
    raises [RequestError] with diagnostic [d], [recognize_with_google]
    returns "Could not request results from Google Speech Recognition
    service; <d>" and [recognize_with_sphinx] returns "Sphinx error: <d>". *)
Theorem backend_failure_texts audio language s w d :
  (recognize_google env audio language (world s) = (Raise (UnknownValueError d), w) →
   (recognize_with_google env audio language s).1
   = Return (spec_unintelligible_text "Google Speech Recognition"))
  ∧ (recognize_google env audio language (world s) = (Raise (RequestError d), w) →
     (recognize_with_google env audio language s).1
     = Return ("Could not request results from Google Speech Recognition service; "
                 +:+ d))
  ∧ (recognize_sphinx env audio (world s) = (Raise (UnknownValueError d), w) →
     (recognize_with_sphinx env audio language s).1
     = Return (spec_unintelligible_text "Sphinx"))
  ∧ (recognize_sphinx env audio (world s) = (Raise (RequestError d), w) →
     (recognize_with_sphinx env audio language s).1
     = Return ("Sphinx error: " +:+ d)).
Proof.
  repeat split; intros Hraise;
    unfold recognize_with_google, recognize_with_sphinx, try_except, bind, call;
    rewrite Hraise; reflexivity.
Qed.

(** ** Unknown backend ids *)

(** C3.  A backend id that is not a key of [recognition_apis] resolves to
    [recognize_with_google]; the lookup has no failing case.  Dispatching on
    such an id is calling [recognize_with_google] on the audio and the
    language tag: when [recognize_google] returns a text, that text is
    returned, and the dispatch is the same as on any id registered for the
    Google method (in [init], "Google Speech Recognition").  Once listening
    has returned, the [try] statement returns a string, the one of the
    Google method or the text of what it raised; no failure for an unknown
    backend exists. *)
Theorem unknown_backend_falls_back api_choice s :
  recognition_apis (self s) !! api_choice = None →
  recognition_method (self s) api_choice = RecognizeWithGoogle
  ∧ (∀ language_choice audio,
       dispatch env api_choice language_choice audio s
       = match recognize_with_google env audio
                 (language_tag (self s) language_choice) s with
         | (Return text, s') =>
             (Return text,
              set_self s' {| recognition_apis := recognition_apis (self s');
                             languages := languages (self s');
                             last_transcription := text |})
         | (Raise e, s') => (Raise e, s')
         end)
  ∧ (∀ language_choice audio text w,
       recognize_google env audio (language_tag (self s) language_choice) (world s)
       = (Return text, w) →
       (dispatch env api_choice language_choice audio s).1 = Return text)
  ∧ (∀ google language_choice audio,
       recognition_apis (self s) !! google = Some RecognizeWithGoogle →
       dispatch env api_choice language_choice audio s
       = dispatch env google language_choice audio s)
  ∧ (∀ source language_choice timeout phrase_time_limit audio w,
       listen env source timeout phrase_time_limit (world s) = (Return audio, w) →
       (listen_and_dispatch env source api_choice language_choice
          timeout phrase_time_limit s).1
       = match (recognize_with_google env audio
                  (language_tag (self s) language_choice)
                  (set_page (set_world s w)
                     (page s ++ [info "Processing audio..."]))).1 with
         | Return text => Return text
         | Raise e => Return (caught_text e)
         end).
Proof.
  intros Hnone.
  assert (recognition_method (self s) api_choice = RecognizeWithGoogle) as Hmethod
    by (unfold recognition_method; by rewrite Hnone).
  split; [done|]. split; [|split; [|split]].
  - intros language_choice audio. by rewrite dispatch_cases, Hmethod.
  - intros language_choice audio text w Hcall.
    rewrite dispatch_cases, Hmethod. simpl.
    unfold recognize_with_google, try_except, bind, call. by rewrite Hcall.
  - intros google language_choice audio Hgoogle.
    rewrite !dispatch_cases, Hmethod. unfold recognition_method.
    by rewrite Hgoogle.
  - intros source language_choice timeout phrase_time_limit audio w Hlisten.
    rewrite listen_and_dispatch_cases, Hlisten, dispatch_cases. simpl.
    rewrite Hmethod. simpl.
    by destruct (recognize_with_google _ _ _ _) as [[text|e] s'].
Qed.

(** ** Effects of a call *)

(** What the [try] statement leaves behind: the two dictionaries and the
    files are as before, the page has at most the message "Processing
    audio..." more, and [last_transcription] is as before or is the text
    returned. *)
Lemma listen_and_dispatch_frame source api_choice language_choice
    timeout phrase_time_limit s :
  let r := listen_and_dispatch env source api_choice language_choice
             timeout phrase_time_limit s in
  recognition_apis (self r.2) = recognition_apis (self s)
  ∧ languages (self r.2) = languages (self s)
  ∧ files r.2 = files s
  ∧ (page r.2 = page s ∨ page r.2 = page s ++ [info "Processing audio..."])
  ∧ (last_transcription (self r.2) = last_transcription (self s)
     ∨ r.1 = Return (last_transcription (self r.2))).
Proof.
  intros r. subst r. rewrite listen_and_dispatch_cases.
  destruct (listen _ _ _ _ _) as [[audio|e] w]; simpl; [|eauto 10].
  rewrite dispatch_cases.
  match goal with
  | |- context [invoke env ?m ?a ?l ?s0] =>
      pose proof (invoke_frame m a l s0) as Hframe;
      destruct (invoke env m a l s0) as [[text|e] s']
  end; simpl in Hframe; rewrite Hframe; simpl; eauto 10.
Qed.

(** C5 (as amended).  A call to [transcribe_speech] only reads the two
    dictionaries [recognition_apis] and [languages] and writes no file.  Its
    effects on the page and on the object are these.  When the microphone
    cannot be entered or the calibration raises, nothing is shown and
    [last_transcription] keeps its value.  Otherwise "Speak now in
    <language_choice>..." is shown; when listening raises, nothing more
    happens to the page or the field; when listening returns, "Processing
    audio..." is shown next, and if the backend returns a text, that text is
    returned and assigned to [last_transcription], while if the backend
    raises the field keeps its value. *)
Theorem transcribe_speech_effects api_choice language_choice
    timeout phrase_time_limit s :
  let r := transcribe_speech env api_choice language_choice
             timeout phrase_time_limit s in
  let speak := info ("Speak now in " +:+ language_choice +:+ "...") in
  recognition_apis (self r.2) = recognition_apis (self s)
  ∧ languages (self r.2) = languages (self s)
  ∧ files r.2 = files s
  ∧ (∀ e w,
       Microphone_enter env (world s) = (Raise e, w) →
       page r.2 = page s
       ∧ last_transcription (self r.2) = last_transcription (self s))
  ∧ (∀ source w1 e w2,
       Microphone_enter env (world s) = (Return source, w1) →
       adjust_for_ambient_noise env source 1 w1 = (Raise e, w2) →
       page r.2 = page s
       ∧ last_transcription (self r.2) = last_transcription (self s))
  ∧ (∀ source w1 w2,
       Microphone_enter env (world s) = (Return source, w1) →
       adjust_for_ambient_noise env source 1 w1 = (Return tt, w2) →
       match listen env source timeout phrase_time_limit w2 with
       | (Raise _, _) =>
           page r.2 = page s ++ [speak]
           ∧ last_transcription (self r.2) = last_transcription (self s)
       | (Return audio, w3) =>
           page r.2 = page s ++ [speak; info "Processing audio..."]
           ∧ match (invoke env (recognition_method (self s) api_choice) audio
                      (language_tag (self s) language_choice)
                      (set_page (set_world s w3)
                         ((page s ++ [speak]) ++ [info "Processing audio..."]))).1 with
             | Return text =>
                 r.1 = Return text ∧ last_transcription (self r.2) = text
             | Raise _ =>
                 last_transcription (self r.2) = last_transcription (self s)
             end
       end).
Proof.
  intros r speak. subst r speak.
  split; [|split; [|split]].
  1-3: rewrite transcribe_speech_cases;
    destruct (Microphone_enter env (world s)) as [[source|e] w1]; simpl;
      [|done];
    destruct (adjust_for_ambient_noise env source 1 w1) as [[[]|e] w2]; simpl;
      [|done];
    match goal with
    | |- context [listen_and_dispatch env ?a ?b ?c ?d ?e ?f] =>
        destruct (listen_and_dispatch_frame a b c d e f)
          as (Hapis & Hlangs & Hfiles & _)
    end; done.
  split; [|split].
  - intros e w Hopen. by rewrite transcribe_speech_cases, Hopen.
  - intros source w1 e w2 Hopen Hnoise.
    by rewrite transcribe_speech_cases, Hopen, Hnoise.
  - intros source w1 w2 Hopen Hnoise.
    rewrite transcribe_speech_cases, Hopen, Hnoise. simpl.
    rewrite listen_and_dispatch_cases. simpl.
    destruct (listen env source timeout phrase_time_limit w2)
      as [[audio|e] w3]; simpl; [|done].
    rewrite dispatch_cases. unfold set_page, set_world. simpl.
    match goal with
    | |- context [invoke env ?m ?a ?l ?s0] =>
        pose proof (invoke_frame m a l s0) as Hframe;
        destruct (invoke env m a l s0) as [[text|e] s']
    end; simpl in Hframe; rewrite Hframe; simpl;
      by rewrite <- app_assoc.
Qed.

(** ** Unsupported language choices *)

(** C6.  A language choice that is not a key of [languages] is replaced by
    the tag "en-US": the selected method is called with that tag, and the
    [try] statement around the dispatch returns a string. *)
Theorem unsupported_language_defaults language_choice s :
  languages (self s) !! language_choice = None →
  language_tag (self s) language_choice = "en-US"
  ∧ (∀ api_choice audio,
       dispatch env api_choice language_choice audio s
       = match invoke env (recognition_method (self s) api_choice) audio "en-US" s with
         | (Return text, s') =>
             (Return text,
              set_self s' {| recognition_apis := recognition_apis (self s');
                             languages := languages (self s');
                             last_transcription := text |})
         | (Raise e, s') => (Raise e, s')
         end)
  ∧ (∀ source api_choice timeout phrase_time_limit,
       ∃ text,
         (listen_and_dispatch env source api_choice language_choice
            timeout phrase_time_limit s).1 = Return text).
Proof.
  intros Hnone.
  assert (language_tag (self s) language_choice = "en-US") as Htag
    by (unfold language_tag; by rewrite Hnone).
  split; [done|split].
  - intros. by rewrite dispatch_cases, Htag.
  - intros. apply listen_and_dispatch_returns.
Qed.

(** ** Repeated dispatch *)

(** Over a deterministic recognizer the text of a method depends on the
    audio and the language only. *)
Lemma invoke_deterministic m audio language s s' :
  deterministic env →
  (invoke env m audio language s).1 = (invoke env m audio language s').1.
Proof.
  intros Hdet.
  destruct (Hdet audio language (world s) (world s')) as [Hgoogle Hsphinx].
  destruct m; simpl;
    unfold recognize_with_google, recognize_with_sphinx, try_except, bind, call, ret.
  - destruct (recognize_google env audio language (world s)) as [[?|[]] ?],
      (recognize_google env audio language (world s')) as [[?|[]] ?];
      simpl in *; congruence.
  - destruct (recognize_sphinx env audio (world s)) as [[?|[]] ?],
      (recognize_sphinx env audio (world s')) as [[?|[]] ?];
      simpl in *; congruence.
Qed.

(** [dispatch] never changes the two dictionaries. *)
Lemma dispatch_keeps_dictionaries api_choice language_choice audio s :
  recognition_apis (self (dispatch env api_choice language_choice audio s).2)
  = recognition_apis (self s)
  ∧ languages (self (dispatch env api_choice language_choice audio s).2)
    = languages (self s).
Proof.
  rewrite dispatch_cases.
  match goal with
  | |- context [invoke env ?m ?a ?l ?s0] =>
      pose proof (invoke_frame m a l s0) as Hframe;
      destruct (invoke env m a l s0) as [[text|e] s']
  end; simpl in Hframe; rewrite Hframe; done.
Qed.

(** C7.  Over a deterministic recognizer, dispatching a second time with
    the same backend id, language choice and audio, in the state the first
    call left behind, returns the same outcome as the first call. *)
Theorem dispatch_twice_same_text api_choice language_choice audio s :
  deterministic env →
  (dispatch env api_choice language_choice audio
     (dispatch env api_choice language_choice audio s).2).1
  = (dispatch env api_choice language_choice audio s).1.
Proof.
  intros Hdet.
  destruct (dispatch_keeps_dictionaries api_choice language_choice audio s)
    as [Hapis Hlangs].
  set (s1 := (dispatch env api_choice language_choice audio s).2) in *.
  rewrite !dispatch_cases.
  unfold recognition_method, language_tag. rewrite Hapis, Hlangs.
  match goal with
  | |- context [invoke env ?m ?a ?l s1] =>
      pose proof (invoke_deterministic m a l s1 s Hdet) as Hsame;
      destruct (invoke env m a l s1) as [[?|?] ?],
        (invoke env m a l s) as [[?|?] ?]
  end; simpl in *; congruence.
Qed.

(** ** Saving *)

(** C8.  Given the empty text or the text "No speech detected. Time limit
    exceeded.", [create_download_file] returns [None]; it shows a warning,
    asks for no temporary file and writes none. *)
Theorem create_download_file_rejects s :
  let nothing := (Return None,
                  set_page s (page s ++ [warning "No valid transcription to save."])) in
  create_download_file env "" s = nothing
  ∧ create_download_file env "No speech detected. Time limit exceeded." s = nothing
  ∧ files nothing.2 = files s
  ∧ world nothing.2 = world s.
Proof. repeat split. Qed.

(** Any other text is written to the temporary file, whose path is
    returned. *)
Lemma create_download_file_saves text s path w :
  text ≠ "" → text ≠ no_speech_text →
  NamedTemporaryFile env ".txt" "transcription_" (world s) = (Return path, w) →
  create_download_file env text s
  = (Return (Some path), set_files (set_world s w) (<[path := text]> (files s))).
Proof.
  intros Hne Hns Htmp. unfold create_download_file.
  rewrite !bool_decide_eq_false_2 by done. simpl.
  unfold bind, call, write_file, ret. by rewrite Htmp.
Qed.

(** ** The language argument of the Sphinx method *)

(** C9.  [recognize_with_sphinx] ignores its language argument: on the same
    audio and in the same state, any two language tags give the same
    result and the same final state. *)
Theorem recognize_with_sphinx_ignores_language audio language1 language2 s :
  recognize_with_sphinx env audio language1 s
  = recognize_with_sphinx env audio language2 s.
Proof. reflexivity. Qed.

(** ** The stored transcription *)

(** C10.  [last_transcription] changes only in a call that listened
    successfully and went on to invoke a backend, and the new value is then
    the text returned.  When the microphone is open and calibrated: if
    listening raises (a [WaitTimeoutError] or anything else) the call
    returns the error text and [last_transcription] is as before; if the
    backend is invoked and returns a text, that text is returned and
    stored; if the backend raises, the error text is returned and
    [last_transcription] is as before. *)
Theorem last_transcription_updates api_choice language_choice
    timeout phrase_time_limit s :
  let r := transcribe_speech env api_choice language_choice
             timeout phrase_time_limit s in
  let speak := info ("Speak now in " +:+ language_choice +:+ "...") in
  (last_transcription (self r.2) ≠ last_transcription (self s) →
   ∃ source w1 w2 audio w3,
     Microphone_enter env (world s) = (Return source, w1)
     ∧ adjust_for_ambient_noise env source 1 w1 = (Return tt, w2)
     ∧ listen env source timeout phrase_time_limit w2 = (Return audio, w3)
     ∧ r.1 = Return (last_transcription (self r.2)))
  ∧ ∀ source w1 w2,
      Microphone_enter env (world s) = (Return source, w1) →
      adjust_for_ambient_noise env source 1 w1 = (Return tt, w2) →
      match listen env source timeout phrase_time_limit w2 with
      | (Raise e, _) =>
          r.1 = Return (caught_text e)
          ∧ last_transcription (self r.2) = last_transcription (self s)
      | (Return audio, w3) =>
          match (invoke env (recognition_method (self s) api_choice) audio
                   (language_tag (self s) language_choice)
                   (set_page (set_world s w3)
                      ((page s ++ [speak]) ++ [info "Processing audio..."]))).1 with
          | Return text =>
              r.1 = Return text ∧ last_transcription (self r.2) = text
          | Raise e =>
              r.1 = Return (caught_text e)
              ∧ last_transcription (self r.2) = last_transcription (self s)
          end
      end.
Proof.
  intros r speak. split.
  - subst r. rewrite transcribe_speech_cases.
    destruct (Microphone_enter env (world s)) as [[source|e] w1]; simpl;
      [|done].
    destruct (adjust_for_ambient_noise env source 1 w1)
      as [[[]|e] w2] eqn:Hnoise; simpl; [|done].
    rewrite listen_and_dispatch_cases. simpl.
    destruct (listen env source timeout phrase_time_limit w2)
      as [[audio|e] w3] eqn:Hlisten; simpl; [|done].
    rewrite dispatch_cases.
    match goal with
    | |- context [invoke env ?m ?a ?l ?s0] =>
        pose proof (invoke_frame m a l s0) as Hframe;
        destruct (invoke env m a l s0) as [[text|e] s']
    end; simpl in Hframe; rewrite Hframe; simpl; [|done].
    intros _. by exists source, w1, w2, audio, w3.
  - intros source w1 w2 Hopen Hnoise.
    exact (transcribe_speech_outcome api_choice language_choice
             timeout phrase_time_limit s source w1 w2 Hopen Hnoise).
Qed.

End Properties.

(** * Runs on scripted environments *)

(** C1, on the failing input.  On a machine without a microphone, a call
    with a registered backend id and a supported language does not return a
    string: the [OSError] that [sr.Microphone()] raises on line 46, before
    the [try] of line 52 is entered, reaches the caller, although the
    [except Exception] clause of lines 69 and 70 is written to turn every
    failure into text. *)
Lemma transcribe_speech_without_microphone :
  (transcribe_speech (scripted no_microphone) "Google Speech Recognition"
     "English (US)" 5 10 fresh).1
  = Raise (OtherException "OSError" "No Default Input Device Available")
  ∧ ¬ ∃ text,
        (transcribe_speech (scripted no_microphone) "Google Speech Recognition"
           "English (US)" 5 10 fresh).1 = Return text.
Proof.
  split; [reflexivity|].
  intros [text Hrun]. vm_compute in Hrun. discriminate Hrun.
Qed.

(** C2, counterexample.  With the diagnostic "x", neither method returns
    "Could not request results from <BackendName>: x", whatever name is put
    for <BackendName>. *)
Lemma unavailable_texts_off_template :
  (∀ name,
     (recognize_with_google (scripted unreachable) [] "en-US" fresh).1
     ≠ Return (spec_unavailable_text name "x"))
  ∧ (∀ name,
       (recognize_with_sphinx (scripted unreachable) [] "en-US" fresh).1
       ≠ Return (spec_unavailable_text name "x")).
Proof.
  split; intros name Heq; injection Heq as Heq.
  - peel Heq name.
  - discriminate Heq.
Qed.

(** The four failure texts, on recognizers that raise the two errors. *)
Lemma backend_failure_texts_witness :
  (recognize_with_google (scripted mumbling) [] "fr-FR" fresh).1
  = Return "Google Speech Recognition could not understand the audio"
  ∧ (recognize_with_google (scripted unreachable) [] "fr-FR" fresh).1
    = Return "Could not request results from Google Speech Recognition service; x"
  ∧ (recognize_with_sphinx (scripted mumbling) [] "fr-FR" fresh).1
    = Return "Sphinx could not understand the audio"
  ∧ (recognize_with_sphinx (scripted unreachable) [] "fr-FR" fresh).1
    = Return "Sphinx error: x".
Proof.
  split; [|split; [|split]].
  - apply (backend_failure_texts (scripted mumbling) [] "fr-FR" fresh 1%nat "").
    reflexivity.
  - apply (backend_failure_texts (scripted unreachable) [] "fr-FR" fresh 1%nat "x").
    reflexivity.
  - apply (backend_failure_texts (scripted mumbling) [] "fr-FR" fresh 1%nat "").
    reflexivity.
  - apply (backend_failure_texts (scripted unreachable) [] "fr-FR" fresh 1%nat "x").
    reflexivity.
Defined.

(** "Whisper" is not a key of [recognition_apis]: it is served by the
    Google method, whose text for an unreachable service comes back. *)
Lemma unknown_backend_falls_back_witness :
  recognition_apis (self fresh) !! "Whisper" = None
  ∧ recognition_method (self fresh) "Whisper" = RecognizeWithGoogle
  ∧ (dispatch (scripted unreachable) "Whisper" "Spanish" [] fresh).1
    = Return "Could not request results from Google Speech Recognition service; x"
  ∧ (dispatch (scripted all_well) "Whisper" "Spanish" [] fresh).1 = Return "hello".
Proof.
  split; [reflexivity|].
  destruct (unknown_backend_falls_back (scripted unreachable) "Whisper" fresh)
    as (Hmethod & Hgoogle & _); [reflexivity|].
  destruct (unknown_backend_falls_back (scripted all_well) "Whisper" fresh)
    as (_ & _ & Hreturns & _); [reflexivity|].
  split; [exact Hmethod|]. split.
  - rewrite Hgoogle. reflexivity.
  - apply (Hreturns "Spanish" [] "hello" 1%nat). reflexivity.
Defined.

(** C4, on the failing input.  The recognizer does not make out the words;
    [transcribe_speech] returns the error text "Google Speech Recognition
    could not understand the audio", and [create_download_file], given that
    text, writes it to a temporary file and returns the path. *)
Lemma error_text_is_saved :
  let run := transcribe_speech (scripted mumbling) "Google Speech Recognition"
               "English (US)" 5 10 fresh in
  let saved := create_download_file (scripted mumbling)
                 "Google Speech Recognition could not understand the audio" run.2 in
  run.1 = Return "Google Speech Recognition could not understand the audio"
  ∧ saved.1 = Return (Some "/tmp/transcription_k3x9.txt")
  ∧ files saved.2 !! "/tmp/transcription_k3x9.txt"
    = Some "Google Speech Recognition could not understand the audio".
Proof. vm_compute. repeat split. Qed.

(** C5, counterexample.  In a session where everything works, the dispatch
    step alone assigns [last_transcription], and the whole call also puts two
    messages on the page. *)
Lemma dispatch_has_effects :
  last_transcription
    (self (dispatch (scripted all_well) "Google Speech Recognition"
             "English (US)" [12; -7; 3]%Z fresh).2)
  ≠ last_transcription (self fresh)
  ∧ page (transcribe_speech (scripted all_well) "Google Speech Recognition"
            "English (US)" 5 10 fresh).2
    ≠ page fresh.
Proof. split; intros Heq; vm_compute in Heq; discriminate Heq. Qed.

(** Everything works and the user says "hello": both messages are shown
    and "hello" is returned and stored. *)
Lemma transcribe_speech_effects_witness :
  Microphone_enter (scripted all_well) (world fresh) = (Return 0%nat, 1%nat)
  ∧ adjust_for_ambient_noise (scripted all_well) 0%nat 1 1%nat = (Return tt, 2%nat)
  ∧ page (transcribe_speech (scripted all_well) "Sphinx (Offline)" "French"
            5 10 fresh).2
    = [info "Speak now in French..."; info "Processing audio..."]
  ∧ (transcribe_speech (scripted all_well) "Sphinx (Offline)" "French"
       5 10 fresh).1 = Return "hello"
  ∧ last_transcription
      (self (transcribe_speech (scripted all_well) "Sphinx (Offline)" "French"
               5 10 fresh).2) = "hello".
Proof.
  split; [reflexivity|split; [reflexivity|]].
  exact (proj2 (proj2 (proj2 (proj2 (proj2
           (transcribe_speech_effects (scripted all_well) "Sphinx (Offline)"
              "French" 5 10 fresh)))))
           0%nat 1%nat 2%nat eq_refl eq_refl).
Defined.

(** "Klingon" is not a key of [languages]: the tag is "en-US". *)
Lemma unsupported_language_defaults_witness :
  languages (self fresh) !! "Klingon" = None
  ∧ language_tag (self fresh) "Klingon" = "en-US".
Proof.
  split; [reflexivity|].
  apply (unsupported_language_defaults (scripted all_well) "Klingon" fresh).
  reflexivity.
Defined.

(** A scripted recognizer is deterministic; dispatching twice on it gives
    the same text. *)
Lemma dispatch_twice_same_text_witness :
  deterministic (scripted unreachable)
  ∧ (dispatch (scripted unreachable) "Sphinx (Offline)" "French" [4; 4]%Z
       (dispatch (scripted unreachable) "Sphinx (Offline)" "French" [4; 4]%Z fresh).2).1
    = (dispatch (scripted unreachable) "Sphinx (Offline)" "French" [4; 4]%Z fresh).1.
Proof.
  assert (deterministic (scripted unreachable)) as Hdet
    by (intros audio language w w'; split; reflexivity).
  split; [exact Hdet|].
  apply (dispatch_twice_same_text (scripted unreachable) "Sphinx (Offline)"
           "French" [4; 4]%Z fresh Hdet).
Defined.

(** Nobody speaks: the no-speech text is returned and
    [last_transcription] keeps its value. *)
Lemma last_transcription_updates_witness :
  Microphone_enter (scripted silence) (world fresh) = (Return 0%nat, 1%nat)
  ∧ adjust_for_ambient_noise (scripted silence) 0%nat 1 1%nat = (Return tt, 2%nat)
  ∧ (transcribe_speech (scripted silence) "Google Speech Recognition"
       "English (US)" 5 10 fresh).1
    = Return "No speech detected. Time limit exceeded."
  ∧ last_transcription
      (self (transcribe_speech (scripted silence) "Google Speech Recognition"
               "English (US)" 5 10 fresh).2)
    = last_transcription (self fresh).
Proof.
  split; [reflexivity|split; [reflexivity|]].
  exact (proj2 (last_transcription_updates (scripted silence)
                  "Google Speech Recognition" "English (US)" 5 10 fresh)
           0%nat 1%nat 2%nat eq_refl eq_refl).
Defined.

(** * Further properties of the methods *)

Section Methods.

Context {World Audio Source : Type}.
Variable env : Env World Audio Source.

Implicit Types (s : State World) (audio : Audio) (source : Source).
Implicit Types (api_choice language_choice language text path : string).
Implicit Types (timeout phrase_time_limit : Z).

(** X1.  When [sr.Microphone()] cannot be entered, [transcribe_speech]
    raises that very exception; no message is shown, the object and the
    files are untouched, and the only library call made is the failed one. *)
Theorem microphone_failure_propagates api_choice language_choice
    timeout phrase_time_limit s e w :
  Microphone_enter env (world s) = (Raise e, w) →
  transcribe_speech env api_choice language_choice timeout phrase_time_limit s
  = (Raise e, set_world s w).
Proof. intros Hopen. by rewrite transcribe_speech_cases, Hopen. Qed.

(** X2.  When [adjust_for_ambient_noise] raises, [transcribe_speech] raises
    that very exception after leaving the [with] block: the microphone is
    closed, no message has been shown and nobody has listened. *)
Theorem calibration_failure_closes_microphone api_choice language_choice
    timeout phrase_time_limit s source w1 e w2 :
  Microphone_enter env (world s) = (Return source, w1) →
  adjust_for_ambient_noise env source 1 w1 = (Raise e, w2) →
  transcribe_speech env api_choice language_choice timeout phrase_time_limit s
  = (Raise e, set_world s (Microphone_exit env source w2)).
Proof. intros Hopen Hnoise. by rewrite transcribe_speech_cases, Hopen, Hnoise. Qed.

(** A method returns what its recognizer returns. *)
Lemma invoke_returns m audio language s text w :
  recognizer env m audio language (world s) = (Return text, w) →
  invoke env m audio language s = (Return text, set_world s w).
Proof.
  destruct m; simpl; intros Hcall;
    unfold recognize_with_google, recognize_with_sphinx, try_except, bind, call;
    by rewrite Hcall.
Qed.

(** X3.  A session without failure: with the microphone open and
    calibrated, an audio captured, the backend id and the language choice
    registered, and the recognizer of that backend returning a text on the
    registered tag, [transcribe_speech] returns that text unchanged and
    stores it in [last_transcription]; the page shows the two messages, the
    microphone is closed, the dictionaries and the files are as before. *)
Theorem transcript_returned_verbatim api_choice language_choice
    timeout phrase_time_limit s source w1 w2 audio w3 m tag text w4 :
  Microphone_enter env (world s) = (Return source, w1) →
  adjust_for_ambient_noise env source 1 w1 = (Return tt, w2) →
  listen env source timeout phrase_time_limit w2 = (Return audio, w3) →
  recognition_apis (self s) !! api_choice = Some m →
  languages (self s) !! language_choice = Some tag →
  recognizer env m audio tag w3 = (Return text, w4) →
  transcribe_speech env api_choice language_choice timeout phrase_time_limit s
  = (Return text,
     {| self := {| recognition_apis := recognition_apis (self s);
                   languages := languages (self s);
                   last_transcription := text |};
        world := Microphone_exit env source w4;
        page := page s ++ [info ("Speak now in " +:+ language_choice +:+ "...");
                           info "Processing audio..."];
        files := files s |}).
Proof.
  intros Hopen Hnoise Hlisten Hm Htag Hcall.
  rewrite transcribe_speech_cases, Hopen, Hnoise. simpl.
  rewrite listen_and_dispatch_cases. simpl. rewrite Hlisten.
  rewrite dispatch_cases. simpl.
  unfold recognition_method, language_tag. rewrite Hm, Htag. simpl.
  erewrite invoke_returns by exact Hcall.
  simpl. by rewrite <- app_assoc.
Qed.

(** X4.  A method of [recognition_apis] raises exactly the exceptions of its
    recognizer that are neither [UnknownValueError] nor [RequestError]; those
    two never leave the method. *)
Theorem invoke_raises_iff m audio language s e :
  (invoke env m audio language s).1 = Raise e
  ↔ (recognizer env m audio language (world s)).1 = Raise e
    ∧ (∀ msg, e ≠ UnknownValueError msg) ∧ (∀ msg, e ≠ RequestError msg).
Proof.
  destruct m; simpl;
    unfold recognize_with_google, recognize_with_sphinx, try_except, bind, call, ret.
  - destruct (recognize_google env audio language (world s)) as [[text|[]] w];
      simpl; (split;
        [intros Hr; try discriminate Hr; injection Hr as <-;
         repeat split; intros; discriminate
        |intros (Hr & Hunknown & Hrequest); try discriminate Hr;
         injection Hr as <-;
         first [reflexivity
               |by destruct (Hunknown _ eq_refl)
               |by destruct (Hrequest _ eq_refl)]]).
  - destruct (recognize_sphinx env audio (world s)) as [[text|[]] w];
      simpl; (split;
        [intros Hr; try discriminate Hr; injection Hr as <-;
         repeat split; intros; discriminate
        |intros (Hr & Hunknown & Hrequest); try discriminate Hr;
         injection Hr as <-;
         first [reflexivity
               |by destruct (Hunknown _ eq_refl)
               |by destruct (Hrequest _ eq_refl)]]).
Qed.

(** [create_download_file], by cases on the text and on what
    [NamedTemporaryFile] does. *)
Lemma create_download_file_cases text s :
  create_download_file env text s
  = if bool_decide (text = "") || bool_decide (text = no_speech_text) then
      (Return None,
       set_page s (page s ++ [warning "No valid transcription to save."]))
    else
      match NamedTemporaryFile env ".txt" "transcription_" (world s) with
      | (Return path, w) =>
          (Return (Some path),
           set_files (set_world s w) (<[path := text]> (files s)))
      | (Raise e, w) => (Raise e, set_world s w)
      end.
Proof.
  unfold create_download_file.
  destruct (bool_decide (text = "") || bool_decide (text = no_speech_text));
    [done|].
  unfold bind, call, write_file, ret.
  by destruct (NamedTemporaryFile _ _ _ _) as [[path|e] w].
Qed.

(** X5.  [create_download_file] returns [None] exactly for the empty text
    and for the no-speech text; any other text gets a path or the exception
    of [NamedTemporaryFile]. *)
Theorem create_download_file_none_iff text s :
  (create_download_file env text s).1 = Return None
  ↔ text = "" ∨ text = no_speech_text.
Proof.
  rewrite create_download_file_cases.
  destruct (decide (text = "")) as [->|Hne]; [naive_solver|].
  destruct (decide (text = no_speech_text)) as [->|Hns]; [naive_solver|].
  rewrite !bool_decide_eq_false_2 by done. simpl.
  destruct (NamedTemporaryFile _ _ _ _) as [[path|e] w]; simpl;
    split; (discriminate || intros [|]; done).
Qed.

(** X7.  When [NamedTemporaryFile] raises, [create_download_file] raises
    that very exception for every text it does not reject; nothing is
    written and no warning is shown. *)
Theorem tempfile_failure_propagates text s e w :
  text ≠ "" → text ≠ no_speech_text →
  NamedTemporaryFile env ".txt" "transcription_" (world s) = (Raise e, w) →
  create_download_file env text s = (Raise e, set_world s w).
Proof.
  intros Hne Hns Htmp. rewrite create_download_file_cases.
  rewrite !bool_decide_eq_false_2 by done. simpl. by rewrite Htmp.
Qed.

(** [transcribe_speech] writes no file. *)
Lemma transcribe_speech_keeps_files api_choice language_choice
    timeout phrase_time_limit s :
  files (transcribe_speech env api_choice language_choice
           timeout phrase_time_limit s).2 = files s.
Proof.
  rewrite transcribe_speech_cases.
  destruct (Microphone_enter env (world s)) as [[source|e] w1]; [|done].
  destruct (adjust_for_ambient_noise env source 1 w1) as [[[]|e] w2]; [|done].
  simpl.
  match goal with
  | |- context [listen_and_dispatch env ?a ?b ?c ?d ?e ?f] =>
      destruct (listen_and_dispatch_frame env a b c d e f) as (_ & _ & Hfiles & _)
  end.
  exact Hfiles.
Qed.

End Methods.


(** * Properties of text files and of the key lists *)



(** The two name lists are the keys of the dictionaries of [__init__], in
    the order of insertion. *)
Lemma names_are_the_keys :
  keys recognition_api_names (recognition_apis init) = recognition_api_names
  ∧ keys language_names (languages init) = language_names
  ∧ (∀ k, is_Some (recognition_apis init !! k) ↔ k ∈ recognition_api_names)
  ∧ (∀ k, is_Some (languages init !! k) ↔ k ∈ language_names).
Proof.
  split; [reflexivity|]. split; [reflexivity|].
  unfold init, recognition_api_names, language_names. simpl.
  split; intros k; rewrite ?lookup_insert_is_Some, lookup_empty, is_Some_alt,
    ?elem_of_cons, elem_of_nil; simpl; intuition congruence.
Qed.

(** * Properties of [main] *)

Section Script.

Context {World Audio Source : Type}.
Variable env : Env World Audio Source.
Variable Recognizer : World → World.
Variable platform : Platform.

Implicit Types (s : State World) (d : list element) (v : Visit).
Implicit Types (text path : string).

(** The body of the [if], by cases on what the two methods do. *)
Lemma record_and_offer_cases v s d :
  record_and_offer env platform v (s, d)
  = match transcribe_speech env (chosen_api v) (chosen_language v)
            (chosen_timeout v) (chosen_phrase_time_limit v) s with
    | (Raise e, s1) => (Raise e, (s1, d))
    | (Return text, s1) =>
        let d1 := (d ++ [write "### Transcription:"]) ++ [write text] in
        match create_download_file env text s1 with
        | (Raise e, s2) => (Raise e, (s2, d1))
        | (Return None, s2) => (Return tt, (s2, d1))
        | (Return (Some path), s2) =>
            if bool_decide (path = "") then (Return tt, (s2, d1))
            else
              match files s2 !! path with
              | Some contents =>
                  (Return tt,
                   (set_files s2 (delete path (files s2)),
                    d1 ++ [offer v (read_back platform contents)]))
              | None =>
                  (Raise (OtherException "FileNotFoundError"
                            ("[Errno 2] No such file or directory: '"
                               +:+ path +:+ "'")),
                   (s2, d1))
              end
        end
    end.
Proof.
  unfold record_and_offer, and_then at 1, method at 1. simpl.
  destruct (transcribe_speech _ _ _ _ _ _) as [[text|e] s1]; [|done].
  unfold and_then at 1, draw at 1. simpl.
  unfold and_then at 1, draw at 1. simpl.
  unfold and_then at 1, method at 1. simpl.
  destruct (create_download_file _ _ _) as [[[path|]|e] s2]; [|done..].
  destruct (bool_decide (path = "")); [done|].
  unfold and_then, method, draw, read_file, os_unlink. simpl.
  destruct (files s2 !! path) as [contents|] eqn:Hfile; simpl;
    [by rewrite Hfile|done].
Qed.

(** [main], by cases on the button: the form is drawn around the
    construction of the object, then the button decides. *)
Lemma main_cases v s d :
  main env Recognizer platform v (s, d)
  = let s0 := set_world (set_self s init) (Recognizer (world s)) in
    if pressed v then record_and_offer env platform v (s0, d ++ front_page)
    else (Return tt, (s0, d ++ front_page)).
Proof.
  unfold main, and_then, draw, method, construct, get_self, done_with.
  cbn [fst snd self set_self set_world].
  set (drawn := d ++ front_page).
  match goal with
  | |- context [(?s0, ?l ++ [button "Start Recording"])] =>
      replace (l ++ [button "Start Recording"]) with drawn
        by (subst drawn; unfold front_page; rewrite <- !app_assoc;
            reflexivity)
  end.
  by destruct (pressed v).
Qed.




(** X8.  A run in which the button is not pressed builds the object and
    draws the form, with the options of the two select boxes in the order
    of [__init__], and returns: apart from [sr.Recognizer()] no library call
    is made, so the microphone is not opened; no message is shown and no
    file is touched. *)
Theorem main_idle v s d :
  pressed v = false →
  main env Recognizer platform v (s, d)
  = (Return tt,
     ({| self := init; world := Recognizer (world s);
         page := page s; files := files s |},
      d ++ front_page)).
Proof. intros Hidle. by rewrite main_cases, Hidle. Qed.

(** X9.  [main] builds its object anew: the object left by an earlier run,
    and with it the [last_transcription] stored then, has no influence on
    the run. *)
Theorem main_fresh_object v s d (earlier : SpeechRecognitionApp) :
  main env Recognizer platform v (set_self s earlier, d)
  = main env Recognizer platform v (s, d).
Proof. by rewrite !main_cases. Qed.

(** X10.  When the button is pressed and the microphone cannot be entered,
    [main] itself raises the exception, right after the form: no
    transcription heading is drawn, no message shown, no file written. *)
Theorem main_microphone_failure v s d e w :
  pressed v = true →
  Microphone_enter env (Recognizer (world s)) = (Raise e, w) →
  main env Recognizer platform v (s, d)
  = (Raise e,
     ({| self := init; world := w; page := page s; files := files s |},
      d ++ front_page)).
Proof.
  intros Hpressed Hopen.
  rewrite main_cases, Hpressed. simpl. rewrite record_and_offer_cases.
  by rewrite transcribe_speech_cases; simpl; rewrite Hopen.
Qed.

(** X11.  When the button is pressed and nobody speaks before the timeout,
    [main] writes the no-speech text under the heading, shows the warning
    and draws no download button; the microphone is closed and no temporary
    file is asked for. *)
Theorem main_timeout v s d source w1 w2 msg w3 :
  pressed v = true →
  Microphone_enter env (Recognizer (world s)) = (Return source, w1) →
  adjust_for_ambient_noise env source 1 w1 = (Return tt, w2) →
  listen env source (chosen_timeout v) (chosen_phrase_time_limit v) w2
  = (Raise (WaitTimeoutError msg), w3) →
  main env Recognizer platform v (s, d)
  = (Return tt,
     ({| self := init;
         world := Microphone_exit env source w3;
         page := page s ++ [info ("Speak now in " +:+ chosen_language v +:+ "...");
                            warning "No valid transcription to save."];
         files := files s |},
      d ++ front_page ++ [write "### Transcription:";
                          write "No speech detected. Time limit exceeded."])).
Proof.
  intros Hpressed Hopen Hnoise Hlisten.
  rewrite main_cases, Hpressed. simpl. rewrite record_and_offer_cases.
  rewrite transcribe_speech_cases. simpl. rewrite Hopen, Hnoise. simpl.
  rewrite listen_and_dispatch_cases. simpl. rewrite Hlisten. simpl.
  by rewrite <- !app_assoc.
Qed.




(** X14.  A run of [main] that returns leaves no temporary file behind:
    provided [NamedTemporaryFile] never gives an empty path, every file
    present after the run was there before with the same contents. *)
Theorem main_leaves_no_file v s d :
  (main env Recognizer platform v (s, d)).1 = Return tt →
  (∀ w path w',
     NamedTemporaryFile env ".txt" "transcription_" w = (Return path, w') →
     path ≠ "") →
  ∀ path contents,
    files (main env Recognizer platform v (s, d)).2.1 !! path = Some contents →
    files s !! path = Some contents.
Proof.
  intros Hreturns Hnames path contents. revert Hreturns.
  pose proof (transcribe_speech_keeps_files env (chosen_api v) (chosen_language v)
                (chosen_timeout v) (chosen_phrase_time_limit v)
                (set_world (set_self s init) (Recognizer (world s))))
    as Hfiles.
  rewrite main_cases. simpl. destruct (pressed v); simpl; [|done].
  rewrite record_and_offer_cases.
  destruct (transcribe_speech _ _ _ _ _ _) as [[text|e] s1]; simpl in *;
    [|done].
  rewrite create_download_file_cases.
  destruct (bool_decide (text = "") || bool_decide (text = no_speech_text));
    simpl; [by rewrite Hfiles|].
  destruct (NamedTemporaryFile _ _ _ _) as [[tmp|e] w] eqn:Htmp; simpl;
    [|done].
  rewrite bool_decide_eq_false_2 by (by eapply Hnames). simpl.
  rewrite lookup_insert_eq. simpl. rewrite delete_insert_eq, Hfiles.
  rewrite lookup_delete_Some. by intros _ [_ ?].
Qed.

End Script.

(** * Further runs on scripted environments *)

(** Without a microphone the call raises the [OSError] and changes nothing
    but the world. *)
Lemma microphone_failure_propagates_witness :
  Microphone_enter (scripted no_microphone) (world fresh)
  = (Raise (OtherException "OSError" "No Default Input Device Available"), 1%nat)
  ∧ transcribe_speech (scripted no_microphone) "Sphinx (Offline)" "French" 5 10 fresh
    = (Raise (OtherException "OSError" "No Default Input Device Available"),
       set_world fresh 1%nat).
Proof.
  split; [reflexivity|].
  apply (microphone_failure_propagates (scripted no_microphone)
           "Sphinx (Offline)" "French" 5 10 fresh); reflexivity.
Defined.

(** The stream breaks during the calibration: the call raises and the
    microphone is closed. *)
Lemma calibration_failure_closes_microphone_witness :
  Microphone_enter (scripted stream_closed) (world fresh) = (Return 0%nat, 1%nat)
  ∧ adjust_for_ambient_noise (scripted stream_closed) 0%nat 1 1%nat
    = (Raise (OtherException "OSError" "[Errno -9988] Stream closed"), 2%nat)
  ∧ transcribe_speech (scripted stream_closed) "Google Speech Recognition"
      "German" 5 10 fresh
    = (Raise (OtherException "OSError" "[Errno -9988] Stream closed"),
       set_world fresh 3%nat).
Proof.
  split; [reflexivity|split; [reflexivity|]].
  apply (calibration_failure_closes_microphone (scripted stream_closed)
           "Google Speech Recognition" "German" 5 10 fresh 0%nat 1%nat);
    reflexivity.
Defined.

(** Sphinx, chosen with Spanish, hears "hello". *)
Lemma transcript_returned_verbatim_witness :
  recognition_apis (self fresh) !! "Sphinx (Offline)" = Some RecognizeWithSphinx
  ∧ languages (self fresh) !! "Spanish" = Some "es-ES"
  ∧ recognizer (scripted all_well) RecognizeWithSphinx [12; -7; 3]%Z "es-ES" 3%nat
    = (Return "hello", 4%nat)
  ∧ (transcribe_speech (scripted all_well) "Sphinx (Offline)" "Spanish" 5 10 fresh).1
    = Return "hello".
Proof.
  split; [reflexivity|split; [reflexivity|split; [reflexivity|]]].
  rewrite (transcript_returned_verbatim (scripted all_well) "Sphinx (Offline)"
             "Spanish" 5 10 fresh 0%nat 1%nat 2%nat [12; -7; 3]%Z 3%nat
             RecognizeWithSphinx "es-ES" "hello" 4%nat);
    reflexivity.
Defined.

(** No space left for the temporary file. *)
Lemma tempfile_failure_propagates_witness :
  NamedTemporaryFile disk_full ".txt" "transcription_" (world fresh)
  = (Raise (OtherException "OSError" "[Errno 28] No space left on device"), 1%nat)
  ∧ create_download_file disk_full "hello" fresh
    = (Raise (OtherException "OSError" "[Errno 28] No space left on device"),
       set_world fresh 1%nat).
Proof.
  split; [reflexivity|].
  apply (tempfile_failure_propagates disk_full "hello" fresh);
    [discriminate..|reflexivity].
Defined.


(** Looking at the page draws the form and nothing else. *)
Lemma main_idle_witness :
  pressed look = false
  ∧ (main (scripted all_well) made posix look (fresh, [])).2.2 = front_page
  ∧ world (main (scripted all_well) made posix look (fresh, [])).2.1 = 1%nat.
Proof.
  split; [reflexivity|].
  rewrite (main_idle (scripted all_well) made posix look fresh []);
    [split; reflexivity|reflexivity].
Defined.

(** Pressing the button on a machine without a microphone. *)
Lemma main_microphone_failure_witness :
  pressed press = true
  ∧ Microphone_enter (scripted no_microphone) (made (world fresh))
    = (Raise (OtherException "OSError" "No Default Input Device Available"), 2%nat)
  ∧ main (scripted no_microphone) made windows press (fresh, [])
    = (Raise (OtherException "OSError" "No Default Input Device Available"),
       (set_world fresh 2%nat, front_page)).
Proof.
  split; [reflexivity|split; [reflexivity|]].
  apply (main_microphone_failure (scripted no_microphone) made windows press
           fresh []); reflexivity.
Defined.

(** Pressing the button and saying nothing. *)
Lemma main_timeout_witness :
  pressed press = true
  ∧ listen (scripted silence) 0%nat 5 10 3%nat
    = (Raise (WaitTimeoutError
                "listening timed out while waiting for phrase to start"), 4%nat)
  ∧ (main (scripted silence) made posix press (fresh, [])).2.2
    = front_page ++ [write "### Transcription:";
                     write "No speech detected. Time limit exceeded."].
Proof.
  split; [reflexivity|split; [reflexivity|]].
  rewrite (main_timeout (scripted silence) made posix press fresh []
             0%nat 2%nat 3%nat
             "listening timed out while waiting for phrase to start" 4%nat);
    reflexivity.
Defined.



(** After "hello" has been offered, no file is left. *)
Lemma main_leaves_no_file_witness :
  (main (scripted all_well) made posix press (fresh, [])).1 = Return tt
  ∧ (∀ w path w',
       NamedTemporaryFile (scripted all_well) ".txt" "transcription_" w
       = (Return path, w') → path ≠ "")
  ∧ ∀ path contents,
      files (main (scripted all_well) made posix press (fresh, [])).2.1 !! path
      = Some contents →
      files fresh !! path = Some contents.
Proof.
  assert (∀ w path w',
            NamedTemporaryFile (scripted all_well) ".txt" "transcription_" w
            = (Return path, w') → path ≠ "") as Hnames
    by (intros w path w' [= <- _]; discriminate).
  split; [reflexivity|]. split; [exact Hnames|].
  apply (main_leaves_no_file (scripted all_well) made posix press fresh []
           eq_refl Hnames).
Defined.
